(** * Drizzle-Dome: the clothesline controller sketch, embedded and verified

    The sketch [drizzle_dome_main.ino] runs on an Arduino Uno.  Its
    globals, the output latches of the board and the sequence of
    library calls it makes are gathered in one record, [World]; what
    the sketch reads from outside (the rain sensor pin and the
    millisecond counter) is an [Env] handed to each pass of [loop].
    Every function of the sketch is a computation in a small state
    monad over the two. *)

From Stdlib Require Import ZArith Lia List String Bool.
From stdpp Require Import base gmap strings sorting.

Local Open Scope Z_scope.

(** ** Board constants and machine integers *)

(** [HIGH] and [LOW] as Arduino.h defines them. *)
Definition LOW : Z := 0.
Definition HIGH : Z := 1.

Inductive PinMode := INPUT | OUTPUT.

(** [unsigned long] is 32 bits wide on the Uno: arithmetic wraps. *)
Definition wrap32 (z : Z) : Z := z mod 2 ^ 32.
Definition sub32 (a b : Z) : Z := wrap32 (a - b).

(** ** Pin definitions *)

Definition motor1A : Z := 7.
Definition motor1B : Z := 6.
Definition motor1Enable : Z := 9.
Definition motor2A : Z := 5.
Definition motor2B : Z := 4.
Definition motor2Enable : Z := 10.
Definition rainSensorPin : Z := 2.
Definition statusLED : Z := 13.

(** ** System state *)

Inductive SystemState := EXTENDED | RETRACTING | RETRACTED | EXTENDING.

(** Calls into the board library, in the order the sketch makes them. *)
Inductive Event :=
| EvPinMode (pin : Z) (mode : PinMode)
| EvDigitalWrite (pin level : Z)
| EvAnalogWrite (pin duty : Z)
| EvSerialBegin (baud : Z)
| EvPrintln (line : string).

(** The seven globals of the sketch, then the board: pin directions,
    digital output latches, PWM duties, and the log of library calls. *)
Record World := mkWorld {
  retractionDelay : Z;
  motorRunTime : Z;
  lastRainTime : Z;
  motorStartTime : Z;
  isRetracted : bool;
  motorsRunning : bool;
  currentState : SystemState;
  pinModes : gmap Z PinMode;
  digitalOut : gmap Z Z;
  pwmOut : gmap Z Z;
  trace : list Event
}.

(** What one pass of [loop] can observe: the level on each input pin,
    and the value the [k]-th call of [millis()] in that pass returns. *)
Record Env := mkEnv {
  pinIn : Z -> bool;
  clock : nat -> Z
}.

(** Assignments to the globals. *)
Definition set_lastRainTime (v : Z) (w : World) : World :=
  mkWorld (retractionDelay w) (motorRunTime w) v (motorStartTime w)
          (isRetracted w) (motorsRunning w) (currentState w)
          (pinModes w) (digitalOut w) (pwmOut w) (trace w).
Definition set_motorStartTime (v : Z) (w : World) : World :=
  mkWorld (retractionDelay w) (motorRunTime w) (lastRainTime w) v
          (isRetracted w) (motorsRunning w) (currentState w)
          (pinModes w) (digitalOut w) (pwmOut w) (trace w).
Definition set_isRetracted (v : bool) (w : World) : World :=
  mkWorld (retractionDelay w) (motorRunTime w) (lastRainTime w) (motorStartTime w)
          v (motorsRunning w) (currentState w)
          (pinModes w) (digitalOut w) (pwmOut w) (trace w).
Definition set_motorsRunning (v : bool) (w : World) : World :=
  mkWorld (retractionDelay w) (motorRunTime w) (lastRainTime w) (motorStartTime w)
          (isRetracted w) v (currentState w)
          (pinModes w) (digitalOut w) (pwmOut w) (trace w).
Definition set_currentState (v : SystemState) (w : World) : World :=
  mkWorld (retractionDelay w) (motorRunTime w) (lastRainTime w) (motorStartTime w)
          (isRetracted w) (motorsRunning w) v
          (pinModes w) (digitalOut w) (pwmOut w) (trace w).

(** Updates of the board. *)
Definition board_pinMode (pin : Z) (m : PinMode) (w : World) : World :=
  mkWorld (retractionDelay w) (motorRunTime w) (lastRainTime w) (motorStartTime w)
          (isRetracted w) (motorsRunning w) (currentState w)
          (<[pin := m]> (pinModes w)) (digitalOut w) (pwmOut w)
          (trace w ++ [EvPinMode pin m]).
(** [digitalWrite] takes its value as a [uint8_t], latches LOW for 0
    and HIGH for anything else, and disconnects the pin from its PWM
    timer. *)
Definition board_digitalWrite (pin val : Z) (w : World) : World :=
  let level := if val mod 256 =? LOW then LOW else HIGH in
  mkWorld (retractionDelay w) (motorRunTime w) (lastRainTime w) (motorStartTime w)
          (isRetracted w) (motorsRunning w) (currentState w)
          (pinModes w) (<[pin := level]> (digitalOut w)) (delete pin (pwmOut w))
          (trace w ++ [EvDigitalWrite pin level]).
Definition board_analogWrite (pin duty : Z) (w : World) : World :=
  mkWorld (retractionDelay w) (motorRunTime w) (lastRainTime w) (motorStartTime w)
          (isRetracted w) (motorsRunning w) (currentState w)
          (pinModes w) (digitalOut w) (<[pin := duty]> (pwmOut w))
          (trace w ++ [EvAnalogWrite pin duty]).
Definition board_log (ev : Event) (w : World) : World :=
  mkWorld (retractionDelay w) (motorRunTime w) (lastRainTime w) (motorStartTime w)
          (isRetracted w) (motorsRunning w) (currentState w)
          (pinModes w) (digitalOut w) (pwmOut w)
          (trace w ++ [ev]).

(** ** The sketch monad *)

Definition Sketch (A : Type) : Type := Env -> World -> A * Env * World.

Global Instance Sketch_ret : MRet Sketch :=
  fun A a e w => (a, e, w).
Global Instance Sketch_bind : MBind Sketch :=
  fun A B f m e w => let '(a, e', w') := m e w in f a e' w'.

Definition modify (f : World -> World) : Sketch unit :=
  fun e w => (tt, e, f w).
Definition gets {A : Type} (f : World -> A) : Sketch A :=
  fun e w => (f w, e, w).

(** The world a computation leaves behind. *)
Definition exec {A : Type} (m : Sketch A) (e : Env) (w : World) : World :=
  snd (m e w).

(** ** Board library *)

Definition pinMode (pin : Z) (m : PinMode) : Sketch unit :=
  modify (board_pinMode pin m).
Definition digitalWrite (pin val : Z) : Sketch unit :=
  modify (board_digitalWrite pin val).
Definition analogWrite (pin duty : Z) : Sketch unit :=
  modify (board_analogWrite pin duty).
Definition digitalRead (pin : Z) : Sketch Z :=
  fun e w => (if pinIn e pin then HIGH else LOW, e, w).
(** Each call consumes one reading of the millisecond counter. *)
Definition millis : Sketch Z :=
  fun e w => (wrap32 (clock e 0%nat),
              mkEnv (pinIn e) (fun k => clock e (S k)), w).
(** Busy-waiting changes nothing the sketch owns; the time that passes
    shows in the readings of the next pass. *)
Definition delay (ms : Z) : Sketch unit := mret tt.
Definition Serial_begin (baud : Z) : Sketch unit :=
  modify (board_log (EvSerialBegin baud)).
Definition Serial_println (line : string) : Sketch unit :=
  modify (board_log (EvPrintln line)).

(** ** Motor actuator *)

Definition startRetractionMotors : Sketch unit :=
  digitalWrite motor1A HIGH;;
  digitalWrite motor1B LOW;;
  digitalWrite motor2A HIGH;;
  digitalWrite motor2B LOW;;
  modify (set_motorsRunning true);;
  Serial_println "Motors: RETRACTING clothesline...".

Definition startExtensionMotors : Sketch unit :=
  digitalWrite motor1A LOW;;
  digitalWrite motor1B HIGH;;
  digitalWrite motor2A LOW;;
  digitalWrite motor2B HIGH;;
  modify (set_motorsRunning true);;
  Serial_println "Motors: EXTENDING clothesline...".

Definition stopMotors : Sketch unit :=
  digitalWrite motor1A LOW;;
  digitalWrite motor1B LOW;;
  digitalWrite motor2A LOW;;
  digitalWrite motor2B LOW;;
  modify (set_motorsRunning false);;
  Serial_println "Motors: STOPPED".

(** ** Initialisation *)

Definition setup : Sketch unit :=
  pinMode motor1A OUTPUT;;
  pinMode motor1B OUTPUT;;
  pinMode motor1Enable OUTPUT;;
  pinMode motor2A OUTPUT;;
  pinMode motor2B OUTPUT;;
  pinMode motor2Enable OUTPUT;;
  pinMode rainSensorPin INPUT;;
  pinMode statusLED OUTPUT;;
  analogWrite motor1Enable 150;;
  analogWrite motor2Enable 150;;
  stopMotors;;
  Serial_begin 9600;;
  Serial_println "Drizzle-Dome System Initialized ";;
  Serial_println "Clothesline in EXTENDED position";;
  digitalWrite statusLED HIGH.

(** ** State handlers *)

Definition handleExtendedState (rainDetected : bool) : Sketch unit :=
  if rainDetected then
    Serial_println "Rain detected! Starting retraction...";;
    startRetractionMotors;;
    modify (set_currentState RETRACTING);;
    t ← millis;
    modify (set_motorStartTime t);;
    modify (set_isRetracted false)
  else mret tt.

Definition handleRetractingState (rainDetected : bool) : Sketch unit :=
  t ← millis;
  started ← gets motorStartTime;
  runTime ← gets motorRunTime;
  if sub32 t started >=? runTime then
    stopMotors;;
    modify (set_currentState RETRACTED);;
    modify (set_isRetracted true);;
    Serial_println "Clothesline fully retracted and safe!"
  else mret tt.

(** [&&] does not call [millis()] when rain is detected. *)
Definition handleRetractedState (rainDetected : bool) : Sketch unit :=
  dryLongEnough ←
    (if negb rainDetected then
       t ← millis;
       lastRain ← gets lastRainTime;
       wait ← gets retractionDelay;
       mret (sub32 t lastRain >=? wait)
     else mret false);
  if (dryLongEnough : bool) then
    Serial_println "No rain detected for safe period. Starting extension...";;
    startExtensionMotors;;
    modify (set_currentState EXTENDING);;
    t ← millis;
    modify (set_motorStartTime t)
  else mret tt.

Definition handleExtendingState (rainDetected : bool) : Sketch unit :=
  if rainDetected then
    Serial_println "EMERGENCY: Rain detected during extension! Retracting immediately!";;
    startRetractionMotors;;
    modify (set_currentState RETRACTING);;
    t ← millis;
    modify (set_motorStartTime t)
  else
    t ← millis;
    started ← gets motorStartTime;
    runTime ← gets motorRunTime;
    if sub32 t started >=? runTime then
      stopMotors;;
      modify (set_currentState EXTENDED);;
      modify (set_isRetracted false);;
      Serial_println "Clothesline fully extended and ready for use!"
    else mret tt.

(** ** Status LED *)

Definition updateStatusLED : Sketch unit :=
  st ← gets currentState;
  match st with
  | EXTENDED => digitalWrite statusLED HIGH
  | RETRACTED => digitalWrite statusLED LOW
  | RETRACTING | EXTENDING =>
      t ← millis;
      digitalWrite statusLED ((t / 200) mod 2)
  end.

(** ** One pass of the control loop *)

Definition loop : Sketch unit :=
  rainStatus ← digitalRead rainSensorPin;
  let rainDetected := rainStatus =? HIGH in
  (if rainDetected then
     t ← millis;
     modify (set_lastRainTime t)
   else mret tt);;
  st ← gets currentState;
  match st with
  | EXTENDED => handleExtendedState rainDetected
  | RETRACTING => handleRetractingState rainDetected
  | RETRACTED => handleRetractedState rainDetected
  | EXTENDING => handleExtendingState rainDetected
  end;;
  updateStatusLED;;
  delay 100.

(** ** Runs of the controller *)

(** The globals as their initialisers leave them, on a board no call
    has touched yet. *)
Definition power_on : World :=
  mkWorld 10000 5000 0 0 false false EXTENDED ∅ ∅ ∅ [].

(** One pass of [loop] as a step on worlds. *)
Definition iteration (e : Env) (w : World) : World := exec loop e w.

Definition run (es : list Env) (w : World) : World :=
  fold_left (fun w' e => iteration e w') es w.

(** The pass the specification calls [tick]: the sensor level is
    [rain], and every call of [millis()] in the pass returns [now]. *)
Definition frozen (rain : bool) (now : Z) : Env :=
  mkEnv (fun _ => rain) (fun _ => now).
Definition tick (rain : bool) (now : Z) (w : World) : World :=
  iteration (frozen rain now) w.

(** [setup] reads neither the sensor nor the clock. *)
Definition booted : World := exec setup (frozen false 0) power_on.

(** The worlds the sketch can be in between two passes of [loop]. *)
Inductive reachable : World -> Prop :=
| reach_boot : reachable booted
| reach_loop e w : reachable w -> reachable (iteration e w).

(** What a pass observes. *)
Definition rainDetected (e : Env) : bool := pinIn e rainSensorPin.
(** The reading the rain monitor stores (first call of the pass). *)
Definition sampleTime (e : Env) : Z := wrap32 (clock e 0%nat).
(** The reading the state handler takes first: the rain monitor has
    consumed one reading before it exactly when rain is detected. *)
Definition handlerTime (e : Env) : Z :=
  wrap32 (clock e (if rainDetected e then 1%nat else 0%nat)).

(** The direction outputs of the two motors: (1A, 1B, 2A, 2B). *)
Definition motorPins (w : World) : option Z * option Z * option Z * option Z :=
  (digitalOut w !! motor1A, digitalOut w !! motor1B,
   digitalOut w !! motor2A, digitalOut w !! motor2B).
Definition pinsRetract := (Some HIGH, Some LOW, Some HIGH, Some LOW).
Definition pinsExtend := (Some LOW, Some HIGH, Some LOW, Some HIGH).
Definition pinsStopped := (Some LOW, Some LOW, Some LOW, Some LOW).

Definition driving (s : SystemState) : bool :=
  match s with
  | RETRACTING | EXTENDING => true
  | EXTENDED | RETRACTED => false
  end.

(** ** The transition table, read off the handlers *)

(** The condition under which the handler of the current state leaves
    that state: the rain trigger or the elapsed-time threshold. *)
Definition fires (e : Env) (w : World) : bool :=
  match currentState w with
  | EXTENDED => rainDetected e
  | RETRACTING => sub32 (handlerTime e) (motorStartTime w) >=? motorRunTime w
  | RETRACTED =>
      negb (rainDetected e)
      && (sub32 (handlerTime e) (lastRainTime w) >=? retractionDelay w)
  | EXTENDING =>
      rainDetected e
      || (sub32 (handlerTime e) (motorStartTime w) >=? motorRunTime w)
  end.

(** The state it then enters. *)
Definition target (e : Env) (w : World) : SystemState :=
  match currentState w with
  | EXTENDED => RETRACTING
  | RETRACTING => RETRACTED
  | RETRACTED => EXTENDING
  | EXTENDING => if rainDetected e then RETRACTING else EXTENDED
  end.

(** The direction outputs that go with a state. *)
Definition pinsOf (s : SystemState) :=
  match s with
  | RETRACTING => pinsRetract
  | EXTENDING => pinsExtend
  | EXTENDED | RETRACTED => pinsStopped
  end.

(** A run in which no pass meets its transition condition. *)
Fixpoint quiet (es : list Env) (w : World) : Prop :=
  match es with
  | [] => True
  | e :: es' => fires e w = false /\ quiet es' (iteration e w)
  end.

(** The indicator as the specification words it: steady on when
    extended, steady off when retracted, toggling every 200 ms while
    the motors run. *)
Definition ledLevel (s : SystemState) (now : Z) : Z :=
  match s with
  | EXTENDED => HIGH
  | RETRACTED => LOW
  | RETRACTING | EXTENDING => (now / 200) mod 2
  end.

(** Library calls that reach one of the two speed-duty outputs. *)
Definition writesEnable (ev : Event) : bool :=
  match ev with
  | EvAnalogWrite pin _ | EvDigitalWrite pin _ =>
      (pin =? motor1Enable) || (pin =? motor2Enable)
  | _ => false
  end.

(** A write to the status indicator, the one call a pass makes when the
    state machine stays put. *)
Definition isStatusWrite (ev : Event) : Prop :=
  exists level, ev = EvDigitalWrite statusLED level.

(** ** Invariants of the control loop *)

(** State, running flag and direction outputs agree. *)
Definition actuator_inv (w : World) : Prop :=
  motorsRunning w = driving (currentState w) /\
  motorPins w = pinsOf (currentState w).

(** The flag is set in the two states entered after a completed
    retraction. *)
Definition flag_inv (w : World) : Prop :=
  match currentState w with
  | RETRACTED | EXTENDING => isRetracted w = true
  | EXTENDED => isRetracted w = false
  | RETRACTING => True
  end.

(** Both duties are as [setup] wrote them, and nothing but [setup]
    wrote them. *)
Definition pwm_inv (w : World) : Prop :=
  pwmOut w !! motor1Enable = Some 150 /\
  pwmOut w !! motor2Enable = Some 150 /\
  List.filter writesEnable (trace w) =
    [EvAnalogWrite motor1Enable 150; EvAnalogWrite motor2Enable 150].

(** [w'] has the speed-duty outputs of [w], and no call between the two
    reached them. *)
Definition enableFrame (w w' : World) : Prop :=
  pwmOut w' !! motor1Enable = pwmOut w !! motor1Enable /\
  pwmOut w' !! motor2Enable = pwmOut w !! motor2Enable /\
  List.filter writesEnable (trace w') = List.filter writesEnable (trace w).

(** A computation that does not assign [lastRainTime]. *)
Definition keepsLastRainTime {A : Type} (m : Sketch A) : Prop :=
  forall e w, lastRainTime (exec m e w) = lastRainTime w.

(** The clock does not go backward (nor wrap) from one pass to a later
    one: the times the passes sample are in non-decreasing order. *)
Definition clockMonotone (es : list Env) : Prop :=
  StronglySorted (fun e1 e2 => sampleTime e1 <= sampleTime e2) es.

(** ** Scenarios of the specification *)

(** EXTENDED; rain at 0 starts the retraction, done at 5000; the dry
    wait ends at 10000 and the extension starts: state EXTENDING with
    [motorStartTime = 10000]. *)
Definition scenarioD : World :=
  tick false 10000 (tick false 5000 (tick true 0 booted)).

(** EXTENDED; rain at 0 starts the retraction, done at 5000: state
    RETRACTED with [lastRainTime = 0], the start of scenario C. *)
Definition scenarioC : World := tick false 5000 (tick true 0 booted).

(** ** Notions for the further properties *)

(** The arrows of the state machine: each handler either stays or
    moves to the next state of the cycle, and only EXTENDING has a
    second way out. *)
Definition successor (s s' : SystemState) : bool :=
  match s, s' with
  | EXTENDED, (EXTENDED | RETRACTING) => true
  | RETRACTING, (RETRACTING | RETRACTED) => true
  | RETRACTED, (RETRACTED | EXTENDING) => true
  | EXTENDING, (EXTENDING | EXTENDED | RETRACTING) => true
  | _, _ => false
  end.

(** The seven globals of the sketch, without the board. *)
Definition globals (w : World) : Z * Z * Z * Z * bool * bool * SystemState :=
  (retractionDelay w, motorRunTime w, lastRainTime w, motorStartTime w,
   isRetracted w, motorsRunning w, currentState w).

Definition isLedWrite (ev : Event) : bool :=
  match ev with
  | EvDigitalWrite pin _ => pin =? statusLED
  | _ => false
  end.

(** The pin directions are those [setup] configured; exactly the five
    digital outputs have a latched level and exactly the two enable
    pins a duty. *)
Definition wiring_inv (w : World) : Prop :=
  pinModes w = pinModes booted /\
  (forall pin,
     pin <> motor1A -> pin <> motor1B -> pin <> motor2A -> pin <> motor2B ->
     pin <> statusLED -> digitalOut w !! pin = None) /\
  (forall pin,
     pin <> motor1Enable -> pin <> motor2Enable -> pwmOut w !! pin = None).

(** The digital output latches after a sequence of board calls, from a
    board no call has touched: each [digitalWrite] latches its level,
    the other calls leave the latches alone. *)
Definition latches (calls : list Event) : gmap Z Z :=
  fold_left (fun m ev =>
               match ev with
               | EvDigitalWrite pin level => <[pin := level]> m
               | _ => m
               end) calls ∅.

(** * Proofs *)

Ltac unfold_sketch :=
  unfold iteration, exec, loop, setup, updateStatusLED,
    handleExtendedState, handleRetractingState, handleRetractedState,
    handleExtendingState, startRetractionMotors, startExtensionMotors,
    stopMotors, delay, Serial_println, Serial_begin, digitalWrite,
    analogWrite, pinMode, digitalRead, millis, modify, gets,
    mbind, Sketch_bind, mret, Sketch_ret.

Ltac unfold_pins :=
  unfold motor1A, motor1B, motor2A, motor2B, motor1Enable, motor2Enable,
    statusLED, rainSensorPin in *.

(** Symbolic execution of one pass: follow every branch of the rain
    monitor, the state switch and the handlers' comparisons. *)
Ltac run_pass :=
  unfold_sketch; cbn;
  repeat first
    [ progress cbn
    | match goal with
      | H : currentState _ = _ |- _ => rewrite H
      | H : pinIn _ _ = _ |- _ => rewrite H
      | H : (_ >=? _) = _ |- _ => rewrite H
      | |- context [if pinIn ?e ?p then _ else _] =>
          destruct (pinIn e p) eqn:?
      | |- context [if ?a >=? ?b then _ else _] =>
          destruct (a >=? b) eqn:?
      | |- context [match currentState ?w with _ => _ end] =>
          destruct (currentState w) eqn:?
      end ].

(** ** Machine arithmetic *)

Lemma wrap32_range (z : Z) : 0 <= wrap32 z < 2 ^ 32.
Proof. unfold wrap32. apply Z.mod_pos_bound. lia. Qed.

Lemma wrap32_small (z : Z) : 0 <= z < 2 ^ 32 -> wrap32 z = z.
Proof. intros H. unfold wrap32. apply Z.mod_small. exact H. Qed.

Lemma sub32_no_wrap (a b : Z) : 0 <= b <= a -> a < 2 ^ 32 -> sub32 a b = a - b.
Proof. intros H1 H2. unfold sub32. apply wrap32_small. lia. Qed.

Lemma geb_true_iff (a b : Z) : (a >=? b) = true <-> b <= a.
Proof. apply Z.geb_le. Qed.

Lemma geb_false_iff (a b : Z) : (a >=? b) = false <-> a < b.
Proof.
  rewrite Z.geb_leb. apply Z.leb_gt.
Qed.

Lemma handlerTime_frozen (rain : bool) (now : Z) :
  handlerTime (frozen rain now) = wrap32 now.
Proof. unfold handlerTime, frozen. cbn. destruct rain; reflexivity. Qed.

(** With rain the handler's reading is the second of the pass. *)
Lemma handlerTime_rain (e : Env) :
  rainDetected e = true -> handlerTime e = wrap32 (clock e 1%nat).
Proof. unfold handlerTime. intros ->. reflexivity. Qed.

(** ** What one pass does to each variable *)

Section OnePass.

Variables (e : Env) (w : World).

Lemma pass_config :
  motorRunTime (iteration e w) = motorRunTime w /\
  retractionDelay (iteration e w) = retractionDelay w.
Proof. run_pass; auto. Qed.

Lemma pass_state :
  currentState (iteration e w) =
    if fires e w then target e w else currentState w.
Proof.
  unfold fires, target, handlerTime, rainDetected.
  run_pass; reflexivity.
Qed.

Lemma pass_motorStartTime :
  motorStartTime (iteration e w) =
    if fires e w && driving (target e w)
    then wrap32 (clock e 1%nat) else motorStartTime w.
Proof.
  unfold fires, target, handlerTime, rainDetected.
  run_pass; reflexivity.
Qed.

Lemma pass_lastRainTime :
  lastRainTime (iteration e w) =
    if rainDetected e then sampleTime e else lastRainTime w.
Proof.
  unfold rainDetected, sampleTime.
  run_pass; reflexivity.
Qed.

Lemma pass_motorsRunning :
  motorsRunning (iteration e w) =
    if fires e w then driving (target e w) else motorsRunning w.
Proof.
  unfold fires, target, handlerTime, rainDetected.
  run_pass; reflexivity.
Qed.

Lemma pass_motorPins :
  motorPins (iteration e w) =
    if fires e w then pinsOf (target e w) else motorPins w.
Proof.
  unfold fires, target, handlerTime, rainDetected.
  run_pass; unfold motorPins; cbn; unfold_pins; simplify_map_eq; reflexivity.
Qed.

Lemma pass_isRetracted :
  isRetracted (iteration e w) =
    if fires e w then
      match currentState w with
      | EXTENDED => false
      | RETRACTING => true
      | RETRACTED => isRetracted w
      | EXTENDING => if rainDetected e then isRetracted w else false
      end
    else isRetracted w.
Proof.
  unfold fires, handlerTime, rainDetected.
  run_pass; reflexivity.
Qed.

(** A pass that takes no transition calls the board once, for the LED. *)
Lemma pass_trace_quiet :
  fires e w = false ->
  exists level, trace (iteration e w) = trace w ++ [EvDigitalWrite statusLED level].
Proof.
  unfold fires, handlerTime, rainDetected.
  run_pass; intros Hf; try discriminate Hf; eexists; reflexivity.
Qed.

Lemma pass_pwmOut :
  pwmOut (iteration e w) !! motor1Enable = pwmOut w !! motor1Enable /\
  pwmOut (iteration e w) !! motor2Enable = pwmOut w !! motor2Enable.
Proof.
  run_pass; unfold_pins; simplify_map_eq; auto.
Qed.

Lemma pass_writesEnable :
  List.filter writesEnable (trace (iteration e w)) =
  List.filter writesEnable (trace w).
Proof.
  run_pass; rewrite ?List.filter_app; cbn; rewrite ?app_nil_r; reflexivity.
Qed.

End OnePass.

(** The four writes of an actuator operation are separate calls: when
    [startRetractionMotors] interrupts an extension, its first write
    raises pin 1A while pin 1B is still HIGH.  The invariants below
    speak of the worlds between passes of [loop], not between calls. *)
Remark retraction_first_write_from_extend (e : Env) (w : World) :
  motorPins w = pinsExtend ->
  motorPins (exec (digitalWrite motor1A HIGH) e w) =
    (Some HIGH, Some HIGH, Some LOW, Some HIGH).
Proof.
  unfold motorPins, pinsExtend. intros Hpins.
  injection Hpins as H1A H1B H2A H2B.
  unfold_sketch. cbn. unfold_pins. simplify_map_eq. reflexivity.
Qed.

(** ** Runs *)

Lemma run_cons (e : Env) (es : list Env) (w : World) :
  run (e :: es) w = run es (iteration e w).
Proof. reflexivity. Qed.

Lemma run_app (es1 es2 : list Env) (w : World) :
  run (es1 ++ es2) w = run es2 (run es1 w).
Proof. unfold run. apply fold_left_app. Qed.

Lemma run_snoc (es : list Env) (e : Env) (w : World) :
  run (es ++ [e]) w = iteration e (run es w).
Proof. rewrite run_app. reflexivity. Qed.

Lemma run_config (es : list Env) (w : World) :
  motorRunTime (run es w) = motorRunTime w /\
  retractionDelay (run es w) = retractionDelay w.
Proof.
  revert w. induction es as [|e es IH]; intros w.
  - split; reflexivity.
  - rewrite run_cons. destruct (IH (iteration e w)) as [H1 H2].
    destruct (pass_config e w) as [H3 H4]. split; congruence.
Qed.

(** ** The invariants hold in every reachable world *)

Lemma reachable_invariant (P : World -> Prop) :
  P booted ->
  (forall e w, P w -> P (iteration e w)) ->
  forall w, reachable w -> P w.
Proof.
  intros Hboot Hpass w Hw. induction Hw as [|e w _ IH].
  - exact Hboot.
  - apply Hpass. exact IH.
Qed.

Lemma booted_actuator_inv : actuator_inv booted.
Proof. split; vm_compute; reflexivity. Qed.

Lemma pass_actuator_inv (e : Env) (w : World) :
  actuator_inv w -> actuator_inv (iteration e w).
Proof.
  intros [Hrun Hpins]. unfold actuator_inv.
  rewrite pass_state, pass_motorsRunning, pass_motorPins.
  destruct (fires e w); auto.
Qed.

Lemma reachable_actuator_inv (w : World) : reachable w -> actuator_inv w.
Proof.
  apply reachable_invariant; [exact booted_actuator_inv | exact pass_actuator_inv].
Qed.

Lemma booted_flag_inv : flag_inv booted.
Proof. vm_compute. reflexivity. Qed.

Lemma pass_flag_inv (e : Env) (w : World) :
  flag_inv w -> flag_inv (iteration e w).
Proof.
  unfold flag_inv. rewrite pass_state, pass_isRetracted. unfold target.
  destruct (currentState w), (fires e w), (rainDetected e); cbn; auto.
Qed.

Lemma reachable_flag_inv (w : World) : reachable w -> flag_inv w.
Proof.
  apply reachable_invariant; [exact booted_flag_inv | exact pass_flag_inv].
Qed.

Lemma booted_pwm_inv : pwm_inv booted.
Proof. repeat split; vm_compute; reflexivity. Qed.

Lemma pass_pwm_inv (e : Env) (w : World) :
  pwm_inv w -> pwm_inv (iteration e w).
Proof.
  intros (H1 & H2 & H3). destruct (pass_pwmOut e w) as [P1 P2].
  repeat split.
  - rewrite P1. exact H1.
  - rewrite P2. exact H2.
  - rewrite pass_writesEnable. exact H3.
Qed.

Lemma reachable_pwm_inv (w : World) : reachable w -> pwm_inv w.
Proof.
  apply reachable_invariant; [exact booted_pwm_inv | exact pass_pwm_inv].
Qed.

Lemma tick_reachable (rain : bool) (now : Z) (w : World) :
  reachable w -> reachable (tick rain now w).
Proof. intros Hw. unfold tick. apply reach_loop. exact Hw. Qed.

Lemma scenarioD_reachable : reachable scenarioD.
Proof. unfold scenarioD. do 3 apply tick_reachable. apply reach_boot. Qed.

(** ** Waiting in RETRACTING and in RETRACTED *)

(** While the handler's readings stay within the run time of the start
    reading, RETRACTING persists and the start reading is kept. *)
Lemma retracting_persists (es : list Env) (w : World) :
  currentState w = RETRACTING ->
  Forall (fun e => sub32 (handlerTime e) (motorStartTime w) < motorRunTime w) es ->
  currentState (run es w) = RETRACTING /\
  motorStartTime (run es w) = motorStartTime w.
Proof.
  revert w. induction es as [|e es IH]; intros w Hs Hearly.
  - split; [exact Hs | reflexivity].
  - apply Forall_cons in Hearly as [He Hes].
    assert (Hquiet : fires e w = false).
    { unfold fires. rewrite Hs. apply geb_false_iff. exact He. }
    pose proof (pass_state e w) as Hst.
    pose proof (pass_motorStartTime e w) as Hmst.
    destruct (pass_config e w) as [Hrt _].
    rewrite Hquiet in Hst, Hmst. cbn in Hmst.
    rewrite run_cons.
    destruct (IH (iteration e w)) as [IH1 IH2].
    + congruence.
    + rewrite Hmst, Hrt. exact Hes.
    + split; congruence.
Qed.

(** While every pass is dry and reads a time within the delay of the
    last rain sample, RETRACTED persists and the sample is kept. *)
Lemma retracted_persists (es : list Env) (w : World) :
  currentState w = RETRACTED ->
  Forall (fun e => rainDetected e = false /\
                   sub32 (handlerTime e) (lastRainTime w) < retractionDelay w) es ->
  currentState (run es w) = RETRACTED /\
  lastRainTime (run es w) = lastRainTime w.
Proof.
  revert w. induction es as [|e es IH]; intros w Hs Hearly.
  - split; [exact Hs | reflexivity].
  - apply Forall_cons in Hearly as [[Hdry He] Hes].
    assert (Hquiet : fires e w = false).
    { unfold fires. rewrite Hs, Hdry. cbn. apply geb_false_iff. exact He. }
    pose proof (pass_state e w) as Hst.
    pose proof (pass_lastRainTime e w) as Hlrt.
    destruct (pass_config e w) as [_ Hrd].
    rewrite Hquiet in Hst. rewrite Hdry in Hlrt.
    rewrite run_cons.
    destruct (IH (iteration e w)) as [IH1 IH2].
    + congruence.
    + rewrite Hlrt, Hrd. exact Hes.
    + split; congruence.
Qed.

(** ** The rain timestamp along a run *)

Lemma lastRainTime_bounded (es : list Env) (w : World) (t : Z) :
  lastRainTime w <= t ->
  Forall (fun e => sampleTime e <= t) es ->
  lastRainTime (run es w) <= t.
Proof.
  revert w. induction es as [|e es IH]; intros w Hw Hes.
  - exact Hw.
  - apply Forall_cons in Hes as [He Hes].
    rewrite run_cons. apply IH; [|exact Hes].
    rewrite pass_lastRainTime. destruct (rainDetected e); assumption.
Qed.

Lemma lastRainTime_grows (es : list Env) (w : World) :
  clockMonotone es ->
  Forall (fun e => lastRainTime w <= sampleTime e) es ->
  lastRainTime w <= lastRainTime (run es w).
Proof.
  revert w. induction es as [|e es IH]; intros w Hsorted Hes.
  - reflexivity.
  - apply Forall_cons in Hes as [He Hes].
    apply StronglySorted_inv in Hsorted as [Hsorted Hfirst].
    rewrite run_cons.
    pose proof (pass_lastRainTime e w) as Hpass.
    destruct (rainDetected e).
    + transitivity (lastRainTime (iteration e w)); [rewrite Hpass; exact He|].
      apply IH; [exact Hsorted|]. rewrite Hpass. exact Hfirst.
    + transitivity (lastRainTime (iteration e w)); [rewrite Hpass; reflexivity|].
      apply IH; [exact Hsorted|]. rewrite Hpass. exact Hes.
Qed.

(** ** The status indicator *)

(** A value that is already 0 or 1 is the level [digitalWrite] latches. *)
Lemma level_of_bit (z : Z) :
  (if (z mod 2) mod 256 =? LOW then LOW else HIGH) = z mod 2.
Proof.
  pose proof (Z.mod_pos_bound z 2 ltac:(lia)) as Hb.
  rewrite (Z.mod_small (z mod 2) 256) by lia.
  unfold LOW, HIGH. destruct (Z.eqb_spec (z mod 2) 0); lia.
Qed.

Lemma updateStatusLED_world (e : Env) (w : World) :
  exec updateStatusLED e w =
    board_digitalWrite statusLED
      (ledLevel (currentState w) (wrap32 (clock e 0%nat))) w.
Proof.
  unfold_sketch. cbn. destruct (currentState w); reflexivity.
Qed.

(** ** The scenarios of the specification, evaluated *)

(** A: no rain in EXTENDED, nothing moves. *)
Example scenario_A :
  currentState (tick false 100 booted) = EXTENDED /\
  motorsRunning (tick false 100 booted) = false /\
  motorPins (tick false 100 booted) = pinsStopped.
Proof. repeat split; vm_compute; reflexivity. Qed.

(** B: rain at 0 starts the retraction, which ends at 5000. *)
Example scenario_B :
  currentState (tick true 0 booted) = RETRACTING /\
  motorStartTime (tick true 0 booted) = 0 /\
  currentState (tick true 4999 (tick true 0 booted)) = RETRACTING /\
  currentState (tick true 5000 (tick true 0 booted)) = RETRACTED /\
  motorPins (tick true 5000 (tick true 0 booted)) = pinsStopped.
Proof. repeat split; vm_compute; reflexivity. Qed.

(** C: with the last rain at 0, 9999 is too early and 10000 extends. *)
Example scenario_C :
  lastRainTime scenarioC = 0 /\
  currentState (tick false 9999 scenarioC) = RETRACTED /\
  currentState (tick false 10000 scenarioC) = EXTENDING /\
  motorStartTime (tick false 10000 scenarioC) = 10000.
Proof. repeat split; vm_compute; reflexivity. Qed.

(** The elapsed time is right across a wrap of the counter: started
    1000 ms before the wrap, the retraction ends 4000 ms after it. *)
Example retraction_across_wrap :
  let w := tick true (2 ^ 32 - 1000) booted in
  motorStartTime w = 4294966296 /\
  currentState (tick false 3999 w) = RETRACTING /\
  currentState (tick false 4000 w) = RETRACTED.
Proof. repeat split; vm_compute; reflexivity. Qed.

(** * The claims *)

(** C1.  In EXTENDING, a pass that detects rain ends in RETRACTING
    whatever the elapsed extension time is: the world is arbitrary, so
    [motorStartTime], [motorRunTime] and the clock may stand in any
    relation.  [motorStartTime] becomes the reading the handler takes
    in this pass ([wrap32 now] in a [tick] at time [now], by
    [handlerTime_frozen]); its old value plays no part. *)
Theorem rain_preempts_extension (e : Env) (w : World) :
  currentState w = EXTENDING ->
  rainDetected e = true ->
  currentState (iteration e w) = RETRACTING /\
  motorStartTime (iteration e w) = handlerTime e.
Proof.
  intros Hs Hr. rewrite pass_state, pass_motorStartTime.
  unfold fires, target. rewrite Hs, Hr. cbn.
  rewrite (handlerTime_rain e Hr). split; reflexivity.
Qed.

(** Scenario D of the specification. *)
Lemma rain_preempts_extension_witness :
  currentState scenarioD = EXTENDING /\
  motorStartTime scenarioD = 10000 /\
  rainDetected (frozen true 12000) = true /\
  currentState (tick true 12000 scenarioD) = RETRACTING /\
  motorStartTime (tick true 12000 scenarioD) = 12000.
Proof.
  split; [reflexivity|]. split; [reflexivity|]. split; [reflexivity|].
  apply (rain_preempts_extension (frozen true 12000) scenarioD); reflexivity.
Defined.

(** C2.  Between passes (and right after [setup]) the running flag is
    set, and the direction outputs are not the stopped combination,
    exactly in RETRACTING and EXTENDING; a pass that changes the state
    leaves the motors started in the direction of the state entered,
    or stopped when it enters RETRACTED or EXTENDED. *)
Theorem motors_drive_iff_state_moving (w : World) :
  reachable w ->
  (motorsRunning w = true <->
     currentState w = RETRACTING \/ currentState w = EXTENDING) /\
  (motorPins w <> pinsStopped <->
     currentState w = RETRACTING \/ currentState w = EXTENDING) /\
  (forall e : Env,
     currentState (iteration e w) <> currentState w ->
     match currentState (iteration e w) with
     | RETRACTING =>
         motorsRunning (iteration e w) = true /\
         motorPins (iteration e w) = pinsRetract
     | EXTENDING =>
         motorsRunning (iteration e w) = true /\
         motorPins (iteration e w) = pinsExtend
     | RETRACTED | EXTENDED =>
         motorsRunning (iteration e w) = false /\
         motorPins (iteration e w) = pinsStopped
     end).
Proof.
  intros Hw. destruct (reachable_actuator_inv w Hw) as [Hrun Hpins].
  split; [|split].
  - rewrite Hrun. destruct (currentState w); cbn; intuition congruence.
  - rewrite Hpins. unfold pinsOf, pinsRetract, pinsExtend, pinsStopped, HIGH, LOW.
    destruct (currentState w); intuition congruence.
  - intros e Hchange.
    rewrite pass_motorsRunning, pass_motorPins.
    rewrite pass_state in Hchange |- *.
    destruct (fires e w); [|congruence].
    destruct (target e w); cbn; split; reflexivity.
Qed.

(** After the rain pass at 0 the sketch is retracting; the pass at 5000
    changes the state, to RETRACTED, and stops the motors. *)
Lemma motors_drive_iff_state_moving_witness :
  reachable (tick true 0 booted) /\
  currentState (iteration (frozen false 5000) (tick true 0 booted))
    <> currentState (tick true 0 booted) /\
  motorsRunning (tick true 0 booted) = true /\
  motorPins (tick true 0 booted) <> pinsStopped /\
  currentState (iteration (frozen false 5000) (tick true 0 booted)) = RETRACTED /\
  motorsRunning (iteration (frozen false 5000) (tick true 0 booted)) = false /\
  motorPins (iteration (frozen false 5000) (tick true 0 booted)) = pinsStopped.
Proof.
  assert (Hreach : reachable (tick true 0 booted))
    by apply tick_reachable, reach_boot.
  assert (Hchange : currentState (iteration (frozen false 5000) (tick true 0 booted))
                    <> currentState (tick true 0 booted))
    by (vm_compute; discriminate).
  destruct (motors_drive_iff_state_moving (tick true 0 booted) Hreach)
    as (Hflag & Hpins & Hstep).
  specialize (Hstep (frozen false 5000) Hchange).
  assert (Hst : currentState (iteration (frozen false 5000) (tick true 0 booted))
                = RETRACTED)
    by reflexivity.
  rewrite Hst in Hstep. destruct Hstep as [Hoff Hstop].
  split; [exact Hreach|]. split; [exact Hchange|].
  split; [apply Hflag; left; reflexivity|].
  split; [apply Hpins; left; reflexivity|].
  split; [exact Hst|]. split; [exact Hoff | exact Hstop].
Defined.

(** C3.  From EXTENDED, the pass that detects rain enters RETRACTING
    and stores its handler reading [t0] as [motorStartTime].  If the
    passes [pre] that follow all read times with [now - t0] below
    [motorRunTime], the state is RETRACTING after every one of them;
    and the pass after them, the first to read a time with
    [now - t0 >= motorRunTime], ends in RETRACTED.  The difference is
    the unsigned 32-bit one the sketch computes; it is the plain
    difference as long as the counter has not wrapped since [t0]
    ([sub32_no_wrap]). *)
Theorem retraction_completes_at_first_late_reading (w : World) (e0 : Env) :
  currentState w = EXTENDED ->
  rainDetected e0 = true ->
  currentState (iteration e0 w) = RETRACTING /\
  motorStartTime (iteration e0 w) = handlerTime e0 /\
  forall pre : list Env,
    Forall (fun e' => sub32 (handlerTime e') (handlerTime e0) < motorRunTime w)
           pre ->
    (forall k : nat,
       currentState (run (take k pre) (iteration e0 w)) = RETRACTING) /\
    (forall e : Env,
       motorRunTime w <= sub32 (handlerTime e) (handlerTime e0) ->
       currentState (run (pre ++ [e]) (iteration e0 w)) = RETRACTED).
Proof.
  intros Hs Hrain.
  assert (Hst : currentState (iteration e0 w) = RETRACTING).
  { rewrite pass_state. unfold fires, target. rewrite Hs, Hrain. reflexivity. }
  assert (Hmst : motorStartTime (iteration e0 w) = handlerTime e0).
  { rewrite pass_motorStartTime. unfold fires, target. rewrite Hs, Hrain.
    cbn. symmetry. apply handlerTime_rain. exact Hrain. }
  destruct (pass_config e0 w) as [Hrt _].
  assert (Hkeep : forall es,
            Forall (fun e' => sub32 (handlerTime e') (handlerTime e0)
                              < motorRunTime w) es ->
            currentState (run es (iteration e0 w)) = RETRACTING /\
            motorStartTime (run es (iteration e0 w)) = handlerTime e0).
  { intros es Hes. rewrite <- Hmst.
    apply retracting_persists; [exact Hst|]. rewrite Hmst, Hrt. exact Hes. }
  split; [exact Hst|]. split; [exact Hmst|].
  intros pre Hearly. split.
  - intros k. apply Hkeep. apply Forall_take. exact Hearly.
  - intros e Hlate.
    destruct (Hkeep pre Hearly) as [Hpre_st Hpre_mst].
    destruct (run_config pre (iteration e0 w)) as [Hpre_rt _].
    rewrite run_snoc, pass_state. unfold fires, target.
    rewrite Hpre_st, Hpre_mst, Hpre_rt, Hrt.
    apply geb_true_iff in Hlate. rewrite Hlate. reflexivity.
Qed.

(** Scenario B of the specification, with two passes in between. *)
Lemma retraction_completes_at_first_late_reading_witness :
  currentState booted = EXTENDED /\
  rainDetected (frozen true 0) = true /\
  Forall (fun e' => sub32 (handlerTime e') (handlerTime (frozen true 0))
                    < motorRunTime booted)
         [frozen true 100; frozen false 4999] /\
  motorRunTime booted
    <= sub32 (handlerTime (frozen false 5000)) (handlerTime (frozen true 0)) /\
  currentState (tick true 0 booted) = RETRACTING /\
  motorStartTime (tick true 0 booted) = 0 /\
  (forall k : nat,
     currentState (run (take k [frozen true 100; frozen false 4999])
                       (tick true 0 booted)) = RETRACTING) /\
  currentState (run ([frozen true 100; frozen false 4999] ++ [frozen false 5000])
                    (tick true 0 booted)) = RETRACTED.
Proof.
  assert (H1 : currentState booted = EXTENDED) by reflexivity.
  assert (H2 : rainDetected (frozen true 0) = true) by reflexivity.
  assert (H3 : Forall (fun e' => sub32 (handlerTime e') (handlerTime (frozen true 0))
                                 < motorRunTime booted)
                      [frozen true 100; frozen false 4999])
    by (repeat constructor).
  assert (H4 : motorRunTime booted
               <= sub32 (handlerTime (frozen false 5000))
                        (handlerTime (frozen true 0)))
    by (vm_compute; discriminate).
  destruct (retraction_completes_at_first_late_reading
              booted (frozen true 0) H1 H2) as (Hst & Hmst & Hrun).
  destruct (Hrun [frozen true 100; frozen false 4999] H3) as [Hearly Hlate].
  split; [exact H1|]. split; [exact H2|]. split; [exact H3|]. split; [exact H4|].
  split; [exact Hst|]. split; [exact Hmst|]. split; [exact Hearly|].
  exact (Hlate (frozen false 5000) H4).
Defined.

(** C4.  In RETRACTED a pass enters EXTENDING exactly when it detects
    no rain and reads a time with [now - lastRainTime >=
    retractionDelay] (unsigned 32-bit subtraction).  A pass that
    detects rain stays in RETRACTED and stores its sample time; after
    it, dry passes [dry] that read times within the delay of that
    sample all stay in RETRACTED, and the next pass extends exactly
    when it is dry and reads a time at least the delay after the
    sample. *)
Theorem extension_waits_for_dry_delay (w : World) (e : Env) :
  currentState w = RETRACTED ->
  (currentState (iteration e w) = EXTENDING <->
     rainDetected e = false /\
     retractionDelay w <= sub32 (handlerTime e) (lastRainTime w)) /\
  (rainDetected e = true ->
     currentState (iteration e w) = RETRACTED /\
     lastRainTime (iteration e w) = sampleTime e /\
     forall (dry : list Env) (e' : Env),
       Forall (fun d => rainDetected d = false /\
                        sub32 (handlerTime d) (sampleTime e) < retractionDelay w)
              dry ->
       (forall k : nat,
          currentState (run (take k dry) (iteration e w)) = RETRACTED) /\
       (currentState (run (dry ++ [e']) (iteration e w)) = EXTENDING <->
          rainDetected e' = false /\
          retractionDelay w <= sub32 (handlerTime e') (sampleTime e))).
Proof.
  assert (Hone : forall e1 w1,
            currentState w1 = RETRACTED ->
            (currentState (iteration e1 w1) = EXTENDING <->
               rainDetected e1 = false /\
               retractionDelay w1 <= sub32 (handlerTime e1) (lastRainTime w1))).
  { intros e1 w1 Hs1. rewrite pass_state. unfold fires, target. rewrite Hs1.
    rewrite <- geb_true_iff.
    destruct (rainDetected e1), (_ >=? _); cbn; intuition congruence. }
  intros Hs. split; [exact (Hone e w Hs)|].
  intros Hrain.
  assert (Hst : currentState (iteration e w) = RETRACTED).
  { rewrite pass_state. unfold fires. rewrite Hs, Hrain. reflexivity. }
  assert (Hlrt : lastRainTime (iteration e w) = sampleTime e).
  { rewrite pass_lastRainTime, Hrain. reflexivity. }
  destruct (pass_config e w) as [_ Hrd].
  split; [exact Hst|]. split; [exact Hlrt|].
  intros dry e' Hdry.
  assert (Hkeep : forall es,
            Forall (fun d => rainDetected d = false /\
                             sub32 (handlerTime d) (sampleTime e)
                             < retractionDelay w) es ->
            currentState (run es (iteration e w)) = RETRACTED /\
            lastRainTime (run es (iteration e w)) = sampleTime e).
  { intros es Hes. rewrite <- Hlrt.
    apply retracted_persists; [exact Hst|]. rewrite Hlrt, Hrd. exact Hes. }
  split.
  - intros k. apply Hkeep. apply Forall_take. exact Hdry.
  - destruct (Hkeep dry Hdry) as [Hdry_st Hdry_lrt].
    destruct (run_config dry (iteration e w)) as [_ Hdry_rd].
    rewrite run_snoc.
    rewrite (Hone e' (run dry (iteration e w)) Hdry_st).
    rewrite Hdry_lrt, Hdry_rd, Hrd. reflexivity.
Qed.

(** Scenario C of the specification after a rain sample at 7000: the
    wait runs from 7000, so 16999 is too early and 17000 extends. *)
Lemma extension_waits_for_dry_delay_witness :
  currentState scenarioC = RETRACTED /\
  rainDetected (frozen true 7000) = true /\
  Forall (fun d => rainDetected d = false /\
                   sub32 (handlerTime d) (sampleTime (frozen true 7000))
                   < retractionDelay scenarioC)
         [frozen false 10000; frozen false 16999] /\
  currentState (tick true 7000 scenarioC) = RETRACTED /\
  lastRainTime (tick true 7000 scenarioC) = 7000 /\
  (forall k : nat,
     currentState (run (take k [frozen false 10000; frozen false 16999])
                       (tick true 7000 scenarioC)) = RETRACTED) /\
  (currentState (run ([frozen false 10000; frozen false 16999]
                        ++ [frozen false 17000])
                     (tick true 7000 scenarioC)) = EXTENDING <->
     rainDetected (frozen false 17000) = false /\
     retractionDelay scenarioC
       <= sub32 (handlerTime (frozen false 17000))
                (sampleTime (frozen true 7000))).
Proof.
  assert (H1 : currentState scenarioC = RETRACTED) by reflexivity.
  assert (H2 : rainDetected (frozen true 7000) = true) by reflexivity.
  assert (H3 : Forall (fun d => rainDetected d = false /\
                                sub32 (handlerTime d) (sampleTime (frozen true 7000))
                                < retractionDelay scenarioC)
                      [frozen false 10000; frozen false 16999])
    by (repeat constructor).
  split; [exact H1|]. split; [exact H2|]. split; [exact H3|].
  destruct (extension_waits_for_dry_delay scenarioC (frozen true 7000) H1)
    as [_ Hrearm].
  destruct (Hrearm H2) as (Hst & Hlrt & Hwait).
  split; [exact Hst|]. split; [exact Hlrt|].
  exact (Hwait [frozen false 10000; frozen false 16999] (frozen false 17000) H3).
Defined.

(** C5.  Through any number of passes none of which meets the
    transition condition of the state it runs in, the state, the
    start reading, the running flag and the direction outputs stay as
    they were, and the only board calls made are status-LED writes,
    one per pass: no motor operation is issued again. *)
Theorem quiet_passes_are_idempotent (es : list Env) (w : World) :
  quiet es w ->
  currentState (run es w) = currentState w /\
  motorStartTime (run es w) = motorStartTime w /\
  motorsRunning (run es w) = motorsRunning w /\
  motorPins (run es w) = motorPins w /\
  exists leds : list Event,
    trace (run es w) = trace w ++ leds /\
    Forall isStatusWrite leds /\
    length leds = length es.
Proof.
  revert w. induction es as [|e es IH]; intros w Hquiet.
  - repeat split; try reflexivity.
    exists []. rewrite app_nil_r. repeat split. constructor.
  - destruct Hquiet as [Hf Hrest].
    destruct (IH (iteration e w) Hrest) as (Hst & Hmst & Hrun & Hpins & leds & Htr & Hleds & Hlen).
    destruct (pass_trace_quiet e w Hf) as [level Hled].
    rewrite run_cons.
    rewrite Hst, Hmst, Hrun, Hpins.
    rewrite pass_state, pass_motorStartTime, pass_motorsRunning, pass_motorPins, Hf.
    repeat split.
    exists (EvDigitalWrite statusLED level :: leds). repeat split.
    + rewrite Htr, Hled, <- app_assoc. reflexivity.
    + constructor; [exists level; reflexivity | exact Hleds].
    + cbn. rewrite Hlen. reflexivity.
Qed.

(** Three passes while retracting, rain still falling, before the run
    time is over. *)
Lemma quiet_passes_are_idempotent_witness :
  quiet [frozen true 100; frozen true 200; frozen true 4999]
        (tick true 0 booted) /\
  currentState (run [frozen true 100; frozen true 200; frozen true 4999]
                    (tick true 0 booted)) = RETRACTING /\
  motorStartTime (run [frozen true 100; frozen true 200; frozen true 4999]
                      (tick true 0 booted)) = 0 /\
  motorsRunning (run [frozen true 100; frozen true 200; frozen true 4999]
                     (tick true 0 booted)) = true /\
  motorPins (run [frozen true 100; frozen true 200; frozen true 4999]
                 (tick true 0 booted)) = pinsRetract /\
  exists leds : list Event,
    trace (run [frozen true 100; frozen true 200; frozen true 4999]
               (tick true 0 booted))
      = trace (tick true 0 booted) ++ leds /\
    Forall isStatusWrite leds /\
    length leds = 3%nat.
Proof.
  assert (Hq : quiet [frozen true 100; frozen true 200; frozen true 4999]
                     (tick true 0 booted))
    by (cbn; repeat split; vm_compute; reflexivity).
  split; [exact Hq|].
  exact (quiet_passes_are_idempotent
           [frozen true 100; frozen true 200; frozen true 4999]
           (tick true 0 booted) Hq).
Defined.

(** C6.  [lastRainTime] starts at 0; a pass stores the time it samples
    when it detects rain, in whatever state, and keeps the old value
    when it does not; [setup], the actuator operations, the four
    handlers and the LED update never assign it; and along any run
    from initialisation whose sampled times never decrease, its value
    after a prefix of the run is at most its value after any longer
    prefix. *)
Theorem lastRainTime_follows_rain_samples :
  lastRainTime power_on = 0 /\
  lastRainTime booted = 0 /\
  (forall e w,
     lastRainTime (iteration e w) =
       if rainDetected e then sampleTime e else lastRainTime w) /\
  (keepsLastRainTime setup /\
   keepsLastRainTime startRetractionMotors /\
   keepsLastRainTime startExtensionMotors /\
   keepsLastRainTime stopMotors /\
   keepsLastRainTime updateStatusLED /\
   (forall b, keepsLastRainTime (handleExtendedState b)) /\
   (forall b, keepsLastRainTime (handleRetractingState b)) /\
   (forall b, keepsLastRainTime (handleRetractedState b)) /\
   (forall b, keepsLastRainTime (handleExtendingState b))) /\
  (forall es1 es2 : list Env,
     clockMonotone (es1 ++ es2) ->
     lastRainTime (run es1 booted) <= lastRainTime (run (es1 ++ es2) booted)).
Proof.
  split; [reflexivity|]. split; [reflexivity|].
  split; [exact pass_lastRainTime|]. split.
  - unfold keepsLastRainTime. repeat apply conj;
      lazymatch goal with
      | |- forall b : bool, _ => intros [|] e w
      | |- _ => intros e w
      end; run_pass; reflexivity.
  - intros es1 es2 Hsorted. rewrite run_app.
    apply lastRainTime_grows.
    + apply StronglySorted_app_1_r in Hsorted. exact Hsorted.
    + apply Forall_forall. intros e2 He2.
      apply lastRainTime_bounded.
      * change (lastRainTime booted) with 0. apply wrap32_range.
      * apply Forall_forall. intros e1 He1.
        exact (StronglySorted_app_1_elem_of _ _ _ _ _ Hsorted He1 He2).
Qed.

(** Rain at 0 and at 7000, dry at 5000 and at 9000. *)
Lemma lastRainTime_follows_rain_samples_witness :
  clockMonotone ([frozen true 0; frozen false 5000]
                   ++ [frozen true 7000; frozen false 9000]) /\
  lastRainTime (run [frozen true 0; frozen false 5000] booted)
    <= lastRainTime (run ([frozen true 0; frozen false 5000]
                            ++ [frozen true 7000; frozen false 9000]) booted).
Proof.
  assert (Hm : clockMonotone ([frozen true 0; frozen false 5000]
                                ++ [frozen true 7000; frozen false 9000])).
  { unfold clockMonotone. cbn.
    repeat (constructor; [|repeat constructor; vm_compute; discriminate]).
    constructor. }
  split; [exact Hm|].
  apply lastRainTime_follows_rain_samples. exact Hm.
Defined.

(** C7.  [updateStatusLED] is one [digitalWrite] to the LED pin of the
    level [ledLevel] gives for the current state and the time read:
    HIGH in EXTENDED, LOW in RETRACTED, [(now / 200) mod 2] in
    RETRACTING and EXTENDING.  Every global, every pin direction and
    every other output is as before.  At the end of a [tick] the LED
    shows the level for the state the tick ends in and the tick's
    time. *)
Theorem status_led_renders_state_and_time :
  (forall e w,
     exec updateStatusLED e w =
       board_digitalWrite statusLED
         (ledLevel (currentState w) (wrap32 (clock e 0%nat))) w) /\
  (forall e w,
     digitalOut (exec updateStatusLED e w) !! statusLED =
       Some (ledLevel (currentState w) (wrap32 (clock e 0%nat))) /\
     (forall pin, pin <> statusLED ->
        digitalOut (exec updateStatusLED e w) !! pin = digitalOut w !! pin /\
        pwmOut (exec updateStatusLED e w) !! pin = pwmOut w !! pin) /\
     retractionDelay (exec updateStatusLED e w) = retractionDelay w /\
     motorRunTime (exec updateStatusLED e w) = motorRunTime w /\
     lastRainTime (exec updateStatusLED e w) = lastRainTime w /\
     motorStartTime (exec updateStatusLED e w) = motorStartTime w /\
     isRetracted (exec updateStatusLED e w) = isRetracted w /\
     motorsRunning (exec updateStatusLED e w) = motorsRunning w /\
     currentState (exec updateStatusLED e w) = currentState w /\
     pinModes (exec updateStatusLED e w) = pinModes w) /\
  (forall rain now w,
     digitalOut (tick rain now w) !! statusLED =
       Some (ledLevel (currentState (tick rain now w)) (wrap32 now))).
Proof.
  split; [exact updateStatusLED_world|]. split.
  - intros e w. rewrite updateStatusLED_world. cbn.
    split; [|split].
    + rewrite lookup_insert_eq. f_equal.
      destruct (currentState w); cbn; try reflexivity; apply level_of_bit.
    + intros pin Hpin.
      rewrite lookup_insert_ne, lookup_delete_ne by congruence. auto.
    + repeat split.
  - intros rain now w. unfold tick, frozen.
    destruct rain; run_pass; try apply lookup_insert_eq;
      rewrite lookup_insert_eq; f_equal; apply level_of_bit.
Qed.

(** While extending, at 1300 ms the LED is in the off half of its
    period, and the write leaves motor pin 1A alone. *)
Lemma status_led_renders_state_and_time_witness :
  motor1A <> statusLED /\
  digitalOut (exec updateStatusLED (frozen false 1300) scenarioD) !! statusLED
    = Some LOW /\
  digitalOut (exec updateStatusLED (frozen false 1300) scenarioD) !! motor1A
    = digitalOut scenarioD !! motor1A /\
  pwmOut (exec updateStatusLED (frozen false 1300) scenarioD) !! motor1A
    = pwmOut scenarioD !! motor1A.
Proof.
  assert (Hpin : motor1A <> statusLED) by (unfold_pins; discriminate).
  destruct status_led_renders_state_and_time as (_ & Hwrite & _).
  destruct (Hwrite (frozen false 1300) scenarioD) as (Hled & Hother & _).
  split; [exact Hpin|]. split; [exact Hled|].
  exact (Hother motor1A Hpin).
Defined.

(** C8.  The three actuator operations and a whole pass of the state
    machine leave both speed-duty outputs as they were and make no
    call that reaches them, from any world; so in every reachable
    world both duties are 150 and the only calls that ever reached
    them are the two [analogWrite]s of [setup], one per output. *)
Theorem speed_duty_written_once_at_setup :
  (forall e w, enableFrame w (exec startRetractionMotors e w)) /\
  (forall e w, enableFrame w (exec startExtensionMotors e w)) /\
  (forall e w, enableFrame w (exec stopMotors e w)) /\
  (forall e w, enableFrame w (iteration e w)) /\
  (forall w,
     reachable w ->
     pwmOut w !! motor1Enable = Some 150 /\
     pwmOut w !! motor2Enable = Some 150 /\
     List.filter writesEnable (trace w) =
       [EvAnalogWrite motor1Enable 150; EvAnalogWrite motor2Enable 150]).
Proof.
  repeat apply conj.
  - intros e w. unfold enableFrame. unfold_sketch. cbn.
    rewrite ?List.filter_app. cbn. rewrite ?app_nil_r.
    unfold_pins. simplify_map_eq. auto.
  - intros e w. unfold enableFrame. unfold_sketch. cbn.
    rewrite ?List.filter_app. cbn. rewrite ?app_nil_r.
    unfold_pins. simplify_map_eq. auto.
  - intros e w. unfold enableFrame. unfold_sketch. cbn.
    rewrite ?List.filter_app. cbn. rewrite ?app_nil_r.
    unfold_pins. simplify_map_eq. auto.
  - intros e w. destruct (pass_pwmOut e w) as [H1 H2].
    repeat split; auto using pass_writesEnable.
  - intros w Hw. exact (reachable_pwm_inv w Hw).
Qed.

Lemma speed_duty_written_once_at_setup_witness :
  reachable scenarioD /\
  pwmOut scenarioD !! motor1Enable = Some 150 /\
  pwmOut scenarioD !! motor2Enable = Some 150 /\
  List.filter writesEnable (trace scenarioD) =
    [EvAnalogWrite motor1Enable 150; EvAnalogWrite motor2Enable 150].
Proof.
  split.
  - exact scenarioD_reachable.
  - apply speed_duty_written_once_at_setup. exact scenarioD_reachable.
Defined.

(** C9.  Between passes the four direction outputs form the retract,
    the extend or the stopped combination, so no motor has both pins
    HIGH and the two motors have equal pin pairs; each of the three
    combinations does occur. *)
Theorem direction_pins_three_combinations :
  (forall w : World,
     reachable w ->
     (motorPins w = pinsRetract \/ motorPins w = pinsExtend \/
      motorPins w = pinsStopped) /\
     ~ (digitalOut w !! motor1A = Some HIGH /\
        digitalOut w !! motor1B = Some HIGH) /\
     ~ (digitalOut w !! motor2A = Some HIGH /\
        digitalOut w !! motor2B = Some HIGH) /\
     digitalOut w !! motor1A = digitalOut w !! motor2A /\
     digitalOut w !! motor1B = digitalOut w !! motor2B) /\
  (exists w, reachable w /\ motorPins w = pinsRetract) /\
  (exists w, reachable w /\ motorPins w = pinsExtend) /\
  (exists w, reachable w /\ motorPins w = pinsStopped).
Proof.
  split; [|split; [|split]].
  - intros w Hw. destruct (reachable_actuator_inv w Hw) as [_ Hpins].
    unfold motorPins in *.
    assert (Hcases : pinsOf (currentState w) = pinsRetract \/
                     pinsOf (currentState w) = pinsExtend \/
                     pinsOf (currentState w) = pinsStopped)
      by (destruct (currentState w); cbn; auto).
    rewrite <- Hpins in Hcases.
    unfold pinsRetract, pinsExtend, pinsStopped, HIGH, LOW in *.
    split; [exact Hcases|].
    destruct Hcases as [Hc|[Hc|Hc]]; injection Hc as H1 H2 H3 H4;
      rewrite H1, H2, H3, H4; repeat split; intuition congruence.
  - exists (tick true 0 booted). split.
    + apply tick_reachable, reach_boot.
    + vm_compute. reflexivity.
  - exists scenarioD. split.
    + exact scenarioD_reachable.
    + vm_compute. reflexivity.
  - exists booted. split.
    + apply reach_boot.
    + vm_compute. reflexivity.
Qed.

Lemma direction_pins_three_combinations_witness :
  reachable scenarioD /\
  ((motorPins scenarioD = pinsRetract \/ motorPins scenarioD = pinsExtend \/
    motorPins scenarioD = pinsStopped) /\
   ~ (digitalOut scenarioD !! motor1A = Some HIGH /\
      digitalOut scenarioD !! motor1B = Some HIGH) /\
   ~ (digitalOut scenarioD !! motor2A = Some HIGH /\
      digitalOut scenarioD !! motor2B = Some HIGH) /\
   digitalOut scenarioD !! motor1A = digitalOut scenarioD !! motor2A /\
   digitalOut scenarioD !! motor1B = digitalOut scenarioD !! motor2B).
Proof.
  split.
  - exact scenarioD_reachable.
  - exact (proj1 direction_pins_three_combinations scenarioD
             scenarioD_reachable).
Defined.

(** The log of board calls determines the latches: replaying the
    calls a reachable world has made gives its digital outputs, so
    replaying a prefix of them gives the outputs at an earlier moment
    of the run. *)
Lemma reachable_latches (w : World) :
  reachable w -> latches (trace w) = digitalOut w.
Proof.
  revert w.
  apply (reachable_invariant (fun w => latches (trace w) = digitalOut w)).
  - vm_compute. reflexivity.
  - intros e w IH. unfold latches in *.
    run_pass; rewrite ?fold_left_app; cbn; rewrite IH; reflexivity.
Qed.

(** C9, at the grain of single board calls.  The emergency pass at
    12000 from scenario D makes its calls one after the other; after
    the first write of [startRetractionMotors] pin 1A is HIGH while
    pin 1B is still HIGH from the extension, and motor 2 still has the
    extend pair.  Only once the pass is over do the latches show the
    retract combination. *)
Lemma direction_pins_both_high_during_reversal :
  reachable (tick true 12000 scenarioD) /\
  latches (trace (tick true 12000 scenarioD))
    = digitalOut (tick true 12000 scenarioD) /\
  exists calls rest : list Event,
    trace (tick true 12000 scenarioD) = calls ++ rest /\
    latches calls !! motor1A = Some HIGH /\
    latches calls !! motor1B = Some HIGH /\
    latches calls !! motor2A = Some LOW /\
    latches calls !! motor2B = Some HIGH.
Proof.
  assert (Hreach : reachable (tick true 12000 scenarioD))
    by (apply tick_reachable; exact scenarioD_reachable).
  split; [exact Hreach|].
  split; [exact (reachable_latches _ Hreach)|].
  exists (trace scenarioD ++
          [EvPrintln "EMERGENCY: Rain detected during extension! Retracting immediately!";
           EvDigitalWrite motor1A HIGH]).
  exists [EvDigitalWrite motor1B LOW; EvDigitalWrite motor2A HIGH;
          EvDigitalWrite motor2B LOW;
          EvPrintln "Motors: RETRACTING clothesline...";
          EvDigitalWrite statusLED LOW].
  repeat split; vm_compute; reflexivity.
Qed.

(** C10.  The flag differs from [currentState = RETRACTED]: leaving
    RETRACTED keeps it, so it is true throughout EXTENDING and in the
    RETRACTING state an emergency retraction enters; and a pass run
    with the flag overwritten differs from the original at most in
    the flag, so nothing the pass decides or outputs depends on it. *)
Theorem isRetracted_outlives_RETRACTED :
  (exists w, reachable w /\ isRetracted w = true /\
             currentState w <> RETRACTED) /\
  (forall e w,
     currentState w = RETRACTED ->
     isRetracted (iteration e w) = isRetracted w) /\
  (forall w,
     reachable w -> currentState w = EXTENDING -> isRetracted w = true) /\
  (forall e w,
     reachable w -> currentState w = EXTENDING -> rainDetected e = true ->
     currentState (iteration e w) = RETRACTING /\
     isRetracted (iteration e w) = true) /\
  (forall e w b,
     set_isRetracted false (iteration e (set_isRetracted b w)) =
     set_isRetracted false (iteration e w)).
Proof.
  assert (Hext : forall w, reachable w -> currentState w = EXTENDING ->
                           isRetracted w = true).
  { intros w Hw Hs. pose proof (reachable_flag_inv w Hw) as Hf.
    unfold flag_inv in Hf. rewrite Hs in Hf. exact Hf. }
  repeat apply conj.
  - exists scenarioD. split; [exact scenarioD_reachable|].
    split; [reflexivity | discriminate].
  - intros e w Hs. rewrite pass_isRetracted, Hs.
    destruct (fires e w); reflexivity.
  - exact Hext.
  - intros e w Hw Hs Hr. rewrite pass_state, pass_isRetracted.
    unfold fires, target. rewrite Hs, Hr. cbn. split; auto.
  - intros e w b. run_pass; reflexivity.
Qed.

Lemma isRetracted_outlives_RETRACTED_witness :
  reachable scenarioD /\
  currentState scenarioD = EXTENDING /\
  rainDetected (frozen true 12000) = true /\
  isRetracted scenarioD = true /\
  currentState (tick true 12000 scenarioD) = RETRACTING /\
  isRetracted (tick true 12000 scenarioD) = true.
Proof.
  destruct isRetracted_outlives_RETRACTED as (_ & _ & Hext & Hemergency & _).
  split; [exact scenarioD_reachable|].
  split; [reflexivity|]. split; [reflexivity|].
  split.
  - apply Hext; [exact scenarioD_reachable | reflexivity].
  - apply (Hemergency (frozen true 12000) scenarioD);
      [exact scenarioD_reachable | reflexivity | reflexivity].
Defined.

(** * Further properties of the sketch *)

(** ** The shape of the state machine *)

(** X1.  A pass takes at most one arrow of the cycle EXTENDED ->
    RETRACTING -> RETRACTED -> EXTENDING -> EXTENDED (plus EXTENDING ->
    RETRACTING): no state is skipped and a retraction is never
    abandoned.  [motorStartTime] changes only in a pass that changes
    the state into RETRACTING or EXTENDING. *)
Theorem pass_moves_one_step (e : Env) (w : World) :
  successor (currentState w) (currentState (iteration e w)) = true /\
  (motorStartTime (iteration e w) <> motorStartTime w ->
   currentState (iteration e w) <> currentState w /\
   driving (currentState (iteration e w)) = true).
Proof.
  rewrite pass_state, pass_motorStartTime. unfold target.
  destruct (fires e w), (currentState w), (rainDetected e); cbn;
    split; try reflexivity; intros H; try congruence; split; congruence.
Qed.

(** The pass that ends scenario C starts the extension and stamps it. *)
Lemma pass_moves_one_step_witness :
  motorStartTime (tick false 10000 scenarioC) <> motorStartTime scenarioC /\
  successor (currentState scenarioC)
            (currentState (tick false 10000 scenarioC)) = true /\
  currentState (tick false 10000 scenarioC) <> currentState scenarioC /\
  driving (currentState (tick false 10000 scenarioC)) = true.
Proof.
  assert (Hmst : motorStartTime (iteration (frozen false 10000) scenarioC)
                 <> motorStartTime scenarioC)
    by (vm_compute; discriminate).
  destruct (pass_moves_one_step (frozen false 10000) scenarioC) as [Hsucc Hstamp].
  destruct (Hstamp Hmst) as [Hchange Hdrive].
  split; [exact Hmst|]. split; [exact Hsucc|].
  split; [exact Hchange | exact Hdrive].
Defined.

(** X2.  Whatever the state, after a pass that detects rain the sketch
    is retracting or retracted; from a reachable world the direction
    outputs are then the retract or the stopped combination, never the
    extend one. *)
Theorem rainy_pass_retracts (e : Env) (w : World) :
  rainDetected e = true ->
  (currentState (iteration e w) = RETRACTING \/
   currentState (iteration e w) = RETRACTED) /\
  (reachable w ->
   motorPins (iteration e w) = pinsRetract \/
   motorPins (iteration e w) = pinsStopped).
Proof.
  intros Hrain.
  assert (Hst : currentState (iteration e w) = RETRACTING \/
                currentState (iteration e w) = RETRACTED).
  { rewrite pass_state. unfold fires, target. rewrite Hrain.
    destruct (currentState w); cbn;
      try destruct (_ >=? _); auto. }
  split; [exact Hst|].
  intros Hw.
  destruct (reachable_actuator_inv _ (reach_loop e w Hw)) as [_ Hpins].
  rewrite Hpins. destruct Hst as [-> | ->]; auto.
Qed.

Lemma rainy_pass_retracts_witness :
  rainDetected (frozen true 12000) = true /\
  reachable scenarioD /\
  (currentState (iteration (frozen true 12000) scenarioD) = RETRACTING \/
   currentState (iteration (frozen true 12000) scenarioD) = RETRACTED) /\
  (motorPins (iteration (frozen true 12000) scenarioD) = pinsRetract \/
   motorPins (iteration (frozen true 12000) scenarioD) = pinsStopped).
Proof.
  assert (Hrain : rainDetected (frozen true 12000) = true) by reflexivity.
  destruct (rainy_pass_retracts (frozen true 12000) scenarioD Hrain)
    as [Hst Hpins].
  split; [exact Hrain|]. split; [exact scenarioD_reachable|].
  split; [exact Hst | exact (Hpins scenarioD_reachable)].
Defined.

(** ** The run timers *)

(** While every pass is dry and reads a time within the run time of
    the start reading, EXTENDING persists and the start reading is
    kept. *)
Lemma extending_persists (es : list Env) (w : World) :
  currentState w = EXTENDING ->
  Forall (fun e => rainDetected e = false /\
                   sub32 (handlerTime e) (motorStartTime w) < motorRunTime w) es ->
  currentState (run es w) = EXTENDING /\
  motorStartTime (run es w) = motorStartTime w.
Proof.
  revert w. induction es as [|e es IH]; intros w Hs Hearly.
  - split; [exact Hs | reflexivity].
  - apply Forall_cons in Hearly as [[Hdry He] Hes].
    assert (Hquiet : fires e w = false).
    { unfold fires. rewrite Hs, Hdry. cbn. apply geb_false_iff. exact He. }
    pose proof (pass_state e w) as Hst.
    pose proof (pass_motorStartTime e w) as Hmst.
    destruct (pass_config e w) as [Hrt _].
    rewrite Hquiet in Hst, Hmst. cbn in Hmst.
    rewrite run_cons.
    destruct (IH (iteration e w)) as [IH1 IH2].
    + congruence.
    + rewrite Hmst, Hrt. exact Hes.
    + split; congruence.
Qed.

(** X3.  An extension that no rain interrupts ends exactly at the
    first pass that reads a time with [now - motorStartTime >=
    motorRunTime]: the state is EXTENDING after every earlier dry
    pass, and that pass enters EXTENDED, stops the motors and clears
    [isRetracted]. *)
Theorem extension_completes_at_first_late_reading (w : World) :
  currentState w = EXTENDING ->
  forall pre : list Env,
    Forall (fun e' => rainDetected e' = false /\
                      sub32 (handlerTime e') (motorStartTime w) < motorRunTime w)
           pre ->
    (forall k : nat, currentState (run (take k pre) w) = EXTENDING) /\
    (forall e : Env,
       rainDetected e = false ->
       motorRunTime w <= sub32 (handlerTime e) (motorStartTime w) ->
       currentState (run (pre ++ [e]) w) = EXTENDED /\
       motorsRunning (run (pre ++ [e]) w) = false /\
       motorPins (run (pre ++ [e]) w) = pinsStopped /\
       isRetracted (run (pre ++ [e]) w) = false).
Proof.
  intros Hs pre Hearly. split.
  - intros k. apply extending_persists; [exact Hs|].
    apply Forall_take. exact Hearly.
  - intros e Hdry Hlate.
    destruct (extending_persists pre w Hs Hearly) as [Hpre_st Hpre_mst].
    destruct (run_config pre w) as [Hpre_rt _].
    assert (Hfires : fires e (run pre w) = true).
    { unfold fires. rewrite Hpre_st, Hdry, Hpre_mst, Hpre_rt. cbn.
      apply geb_true_iff. exact Hlate. }
    rewrite run_snoc.
    rewrite pass_state, pass_motorsRunning, pass_motorPins, pass_isRetracted.
    rewrite Hfires. unfold target. rewrite Hpre_st, Hdry.
    repeat split.
Qed.

(** The extension of scenario D, started at 10000, ends at 15000. *)
Lemma extension_completes_at_first_late_reading_witness :
  currentState scenarioD = EXTENDING /\
  Forall (fun e' => rainDetected e' = false /\
                    sub32 (handlerTime e') (motorStartTime scenarioD)
                    < motorRunTime scenarioD)
         [frozen false 12000; frozen false 14999] /\
  rainDetected (frozen false 15000) = false /\
  motorRunTime scenarioD
    <= sub32 (handlerTime (frozen false 15000)) (motorStartTime scenarioD) /\
  (forall k : nat,
     currentState (run (take k [frozen false 12000; frozen false 14999])
                       scenarioD) = EXTENDING) /\
  currentState (run ([frozen false 12000; frozen false 14999]
                       ++ [frozen false 15000]) scenarioD) = EXTENDED /\
  motorsRunning (run ([frozen false 12000; frozen false 14999]
                        ++ [frozen false 15000]) scenarioD) = false /\
  motorPins (run ([frozen false 12000; frozen false 14999]
                    ++ [frozen false 15000]) scenarioD) = pinsStopped /\
  isRetracted (run ([frozen false 12000; frozen false 14999]
                      ++ [frozen false 15000]) scenarioD) = false.
Proof.
  assert (H1 : currentState scenarioD = EXTENDING) by reflexivity.
  assert (H2 : Forall (fun e' => rainDetected e' = false /\
                                 sub32 (handlerTime e') (motorStartTime scenarioD)
                                 < motorRunTime scenarioD)
                      [frozen false 12000; frozen false 14999])
    by (repeat constructor).
  assert (H3 : rainDetected (frozen false 15000) = false) by reflexivity.
  assert (H4 : motorRunTime scenarioD
               <= sub32 (handlerTime (frozen false 15000))
                        (motorStartTime scenarioD))
    by (vm_compute; discriminate).
  destruct (extension_completes_at_first_late_reading scenarioD H1
              [frozen false 12000; frozen false 14999] H2) as [Hearly Hlate].
  split; [exact H1|]. split; [exact H2|]. split; [exact H3|]. split; [exact H4|].
  split; [exact Hearly|].
  exact (Hlate (frozen false 15000) H3 H4).
Defined.

(** X4.  Any retraction, the emergency one included, runs its full
    time whatever the rain does meanwhile: from a world in RETRACTING
    the state stays RETRACTING through passes that read times with
    [now - motorStartTime < motorRunTime], and the first pass at or
    past the run time enters RETRACTED, stops the motors and sets
    [isRetracted]. *)
Theorem retraction_runs_its_full_time (w : World) :
  currentState w = RETRACTING ->
  forall pre : list Env,
    Forall (fun e' => sub32 (handlerTime e') (motorStartTime w) < motorRunTime w)
           pre ->
    (forall k : nat, currentState (run (take k pre) w) = RETRACTING) /\
    (forall e : Env,
       motorRunTime w <= sub32 (handlerTime e) (motorStartTime w) ->
       currentState (run (pre ++ [e]) w) = RETRACTED /\
       motorsRunning (run (pre ++ [e]) w) = false /\
       motorPins (run (pre ++ [e]) w) = pinsStopped /\
       isRetracted (run (pre ++ [e]) w) = true).
Proof.
  intros Hs pre Hearly. split.
  - intros k. apply retracting_persists; [exact Hs|].
    apply Forall_take. exact Hearly.
  - intros e Hlate.
    destruct (retracting_persists pre w Hs Hearly) as [Hpre_st Hpre_mst].
    destruct (run_config pre w) as [Hpre_rt _].
    assert (Hfires : fires e (run pre w) = true).
    { unfold fires. rewrite Hpre_st, Hpre_mst, Hpre_rt.
      apply geb_true_iff. exact Hlate. }
    rewrite run_snoc.
    rewrite pass_state, pass_motorsRunning, pass_motorPins, pass_isRetracted.
    rewrite Hfires. unfold target. rewrite Hpre_st.
    repeat split.
Qed.

(** The emergency retraction started at 12000 in scenario D: rain or
    not, it ends at 17000. *)
Lemma retraction_runs_its_full_time_witness :
  currentState (tick true 12000 scenarioD) = RETRACTING /\
  Forall (fun e' => sub32 (handlerTime e') (motorStartTime (tick true 12000 scenarioD))
                    < motorRunTime (tick true 12000 scenarioD))
         [frozen false 13000; frozen true 16999] /\
  motorRunTime (tick true 12000 scenarioD)
    <= sub32 (handlerTime (frozen false 17000))
             (motorStartTime (tick true 12000 scenarioD)) /\
  (forall k : nat,
     currentState (run (take k [frozen false 13000; frozen true 16999])
                       (tick true 12000 scenarioD)) = RETRACTING) /\
  currentState (run ([frozen false 13000; frozen true 16999]
                       ++ [frozen false 17000])
                    (tick true 12000 scenarioD)) = RETRACTED /\
  motorsRunning (run ([frozen false 13000; frozen true 16999]
                        ++ [frozen false 17000])
                     (tick true 12000 scenarioD)) = false /\
  motorPins (run ([frozen false 13000; frozen true 16999]
                    ++ [frozen false 17000])
                 (tick true 12000 scenarioD)) = pinsStopped /\
  isRetracted (run ([frozen false 13000; frozen true 16999]
                      ++ [frozen false 17000])
                   (tick true 12000 scenarioD)) = true.
Proof.
  assert (H1 : currentState (tick true 12000 scenarioD) = RETRACTING)
    by reflexivity.
  assert (H2 : Forall (fun e' => sub32 (handlerTime e')
                                   (motorStartTime (tick true 12000 scenarioD))
                                 < motorRunTime (tick true 12000 scenarioD))
                      [frozen false 13000; frozen true 16999])
    by (repeat constructor).
  assert (H3 : motorRunTime (tick true 12000 scenarioD)
               <= sub32 (handlerTime (frozen false 17000))
                        (motorStartTime (tick true 12000 scenarioD)))
    by (vm_compute; discriminate).
  destruct (retraction_runs_its_full_time (tick true 12000 scenarioD) H1
              [frozen false 13000; frozen true 16999] H2) as [Hearly Hlate].
  split; [exact H1|]. split; [exact H2|]. split; [exact H3|].
  split; [exact Hearly|].
  exact (Hlate (frozen false 17000) H3).
Defined.

(** ** The counter wrapping around *)

(** The unsigned difference of two readings is the time that passed
    between them, whether or not the counter wrapped in between. *)
Lemma sub32_elapsed (t d : Z) :
  0 <= d < 2 ^ 32 -> sub32 (wrap32 (t + d)) (wrap32 t) = d.
Proof.
  intros Hd. unfold sub32, wrap32.
  rewrite <- Zminus_mod. replace (t + d - t) with d by lia.
  apply Z.mod_small. exact Hd.
Qed.

(** X5.  The timers measure real elapsed time across a wrap of
    [millis()]: if the handler reads the counter [d] milliseconds
    (less than 2^32) after the reading stored in [motorStartTime],
    a retraction ends exactly when [d >= motorRunTime]; and if it
    reads it [d] milliseconds after the reading stored in
    [lastRainTime], a dry pass in RETRACTED extends exactly when
    [d >= retractionDelay]. *)
Theorem timers_survive_counter_wrap (e : Env) (w : World) (t d : Z) :
  0 <= d < 2 ^ 32 ->
  handlerTime e = wrap32 (t + d) ->
  (currentState w = RETRACTING -> motorStartTime w = wrap32 t ->
   (currentState (iteration e w) = RETRACTED <-> motorRunTime w <= d)) /\
  (currentState w = RETRACTED -> lastRainTime w = wrap32 t ->
   rainDetected e = false ->
   (currentState (iteration e w) = EXTENDING <-> retractionDelay w <= d)).
Proof.
  intros Hd Hnow. split.
  - intros Hs Hmst. rewrite pass_state. unfold fires, target.
    rewrite Hs, Hnow, Hmst, sub32_elapsed by exact Hd.
    rewrite <- geb_true_iff. destruct (d >=? motorRunTime w); intuition congruence.
  - intros Hs Hlrt Hdry. rewrite pass_state. unfold fires, target.
    rewrite Hs, Hdry, Hnow, Hlrt, sub32_elapsed by exact Hd. cbn.
    rewrite <- geb_true_iff. destruct (d >=? retractionDelay w); intuition congruence.
Qed.

(** A retraction started 1000 ms before the counter wraps: 5000 ms
    later the counter reads 4000 and the retraction ends. *)
Lemma timers_survive_counter_wrap_witness :
  0 <= 5000 < 2 ^ 32 /\
  handlerTime (frozen false 4000) = wrap32 (4294966296 + 5000) /\
  currentState (tick true 4294966296 booted) = RETRACTING /\
  motorStartTime (tick true 4294966296 booted) = wrap32 4294966296 /\
  (currentState (iteration (frozen false 4000) (tick true 4294966296 booted))
     = RETRACTED <->
   motorRunTime (tick true 4294966296 booted) <= 5000).
Proof.
  assert (H1 : 0 <= 5000 < 2 ^ 32) by lia.
  assert (H2 : handlerTime (frozen false 4000) = wrap32 (4294966296 + 5000))
    by reflexivity.
  assert (H3 : currentState (tick true 4294966296 booted) = RETRACTING)
    by reflexivity.
  assert (H4 : motorStartTime (tick true 4294966296 booted) = wrap32 4294966296)
    by reflexivity.
  destruct (timers_survive_counter_wrap (frozen false 4000)
              (tick true 4294966296 booted) 4294966296 5000 H1 H2)
    as [Hretract _].
  split; [exact H1|]. split; [exact H2|]. split; [exact H3|]. split; [exact H4|].
  exact (Hretract H3 H4).
Defined.

(** ** What the control decisions depend on *)

(** X6.  The sketch is open loop: the globals after a pass are
    determined by the globals before it and by what the pass reads
    from the sensor and the counter.  The output latches, the PWM
    duties, the pin directions and the serial log are written and
    never read back. *)
Theorem control_ignores_board_and_log (e : Env) (w1 w2 : World) :
  globals w1 = globals w2 ->
  globals (iteration e w1) = globals (iteration e w2).
Proof.
  unfold globals. intros Heq.
  injection Heq as Hrd Hrt Hlrt Hmst Hir Hmr Hcs.
  assert (Hfires : fires e w1 = fires e w2)
    by (unfold fires; rewrite Hrd, Hrt, Hlrt, Hmst, Hcs; reflexivity).
  assert (Htarget : target e w1 = target e w2)
    by (unfold target; rewrite Hcs; reflexivity).
  destruct (pass_config e w1) as [Hrt1 Hrd1].
  destruct (pass_config e w2) as [Hrt2 Hrd2].
  rewrite Hrt1, Hrd1, Hrt2, Hrd2.
  rewrite !pass_lastRainTime, !pass_motorStartTime, !pass_isRetracted,
    !pass_motorsRunning, !pass_state.
  rewrite Hfires, Htarget, Hrd, Hrt, Hlrt, Hmst, Hir, Hmr, Hcs.
  reflexivity.
Qed.

(** The same pass from the initialised board and from a board no call
    has touched. *)
Lemma control_ignores_board_and_log_witness :
  globals booted = globals power_on /\
  globals (tick true 0 booted) = globals (tick true 0 power_on).
Proof.
  assert (H : globals booted = globals power_on) by reflexivity.
  split; [exact H|].
  exact (control_ignores_board_and_log (frozen true 0) booted power_on H).
Defined.

(** X7.  [motorsRunning] is written by the actuator operations and
    read nowhere: a pass run with the flag overwritten differs from
    the original at most in the flag. *)
Theorem motorsRunning_is_write_only (e : Env) (w : World) (b : bool) :
  set_motorsRunning false (iteration e (set_motorsRunning b w)) =
  set_motorsRunning false (iteration e w).
Proof. run_pass; reflexivity. Qed.

(** X8.  While the sketch is retracting, rain changes nothing but the
    rain timestamp: a tick with rain and a tick without, at the same
    time, end in worlds that differ at most in [lastRainTime]. *)
Theorem rain_during_retraction_only_stamps
  (now stamp : Z) (w : World) :
  currentState w = RETRACTING ->
  set_lastRainTime stamp (tick true now w) =
  set_lastRainTime stamp (tick false now w).
Proof.
  intros Hs. unfold tick, frozen. run_pass; reflexivity.
Qed.

Lemma rain_during_retraction_only_stamps_witness :
  currentState (tick true 0 booted) = RETRACTING /\
  set_lastRainTime 0 (tick true 3000 (tick true 0 booted)) =
  set_lastRainTime 0 (tick false 3000 (tick true 0 booted)).
Proof.
  assert (H : currentState (tick true 0 booted) = RETRACTING) by reflexivity.
  split; [exact H|].
  exact (rain_during_retraction_only_stamps 3000 0 (tick true 0 booted) H).
Defined.

(** X9.  In the rest states the flag says where the line is: in every
    reachable world it is true in RETRACTED and false in EXTENDED. *)
Theorem isRetracted_right_at_rest (w : World) :
  reachable w ->
  (currentState w = RETRACTED -> isRetracted w = true) /\
  (currentState w = EXTENDED -> isRetracted w = false).
Proof.
  intros Hw. pose proof (reachable_flag_inv w Hw) as Hflag.
  unfold flag_inv in Hflag.
  split; intros Hs; rewrite Hs in Hflag; exact Hflag.
Qed.

Lemma isRetracted_right_at_rest_witness :
  reachable scenarioC /\
  currentState scenarioC = RETRACTED /\
  isRetracted scenarioC = true.
Proof.
  assert (Hreach : reachable scenarioC)
    by (unfold scenarioC; do 2 apply tick_reachable; apply reach_boot).
  assert (Hs : currentState scenarioC = RETRACTED) by reflexivity.
  split; [exact Hreach|]. split; [exact Hs|].
  exact (proj1 (isRetracted_right_at_rest scenarioC Hreach) Hs).
Defined.

(** ** The board *)

Lemma booted_wiring_inv : wiring_inv booted.
Proof.
  split; [reflexivity|]. split.
  - intros pin H1 H2 H3 H4 H5. unfold booted. unfold_sketch. cbn.
    unfold_pins. simplify_map_eq. reflexivity.
  - intros pin H1 H2. unfold booted. unfold_sketch. cbn.
    repeat (apply lookup_delete_None; right).
    unfold_pins. simplify_map_eq. reflexivity.
Qed.

Lemma pass_wiring_inv (e : Env) (w : World) :
  wiring_inv w -> wiring_inv (iteration e w).
Proof.
  intros (Hmodes & Hout & Hpwm). split; [|split].
  - rewrite <- Hmodes. run_pass; reflexivity.
  - intros pin H1 H2 H3 H4 H5. specialize (Hout pin H1 H2 H3 H4 H5).
    run_pass; unfold_pins; rewrite ?lookup_insert_ne by congruence;
      exact Hout.
  - intros pin H1 H2. specialize (Hpwm pin H1 H2).
    run_pass; repeat (apply lookup_delete_None; right); exact Hpwm.
Qed.

Lemma reachable_wiring_inv (w : World) : reachable w -> wiring_inv w.
Proof.
  apply reachable_invariant; [exact booted_wiring_inv | exact pass_wiring_inv].
Qed.

(** X10.  The sketch drives only pins it configured as outputs: in
    every reachable world a pin with a latched level or a PWM duty has
    mode OUTPUT, and the rain sensor pin is an INPUT that was never
    written. *)
Theorem only_configured_outputs_are_driven (w : World) :
  reachable w ->
  pinModes w !! rainSensorPin = Some INPUT /\
  digitalOut w !! rainSensorPin = None /\
  pwmOut w !! rainSensorPin = None /\
  forall pin : Z,
    is_Some (digitalOut w !! pin) \/ is_Some (pwmOut w !! pin) ->
    pinModes w !! pin = Some OUTPUT.
Proof.
  intros Hw. destruct (reachable_wiring_inv w Hw) as (Hmodes & Hout & Hpwm).
  rewrite Hmodes.
  split; [reflexivity|].
  split; [apply Hout; unfold_pins; discriminate|].
  split; [apply Hpwm; unfold_pins; discriminate|].
  intros pin [Hsome | Hsome].
  - destruct (decide (pin = motor1A)) as [->|H1]; [reflexivity|].
    destruct (decide (pin = motor1B)) as [->|H2]; [reflexivity|].
    destruct (decide (pin = motor2A)) as [->|H3]; [reflexivity|].
    destruct (decide (pin = motor2B)) as [->|H4]; [reflexivity|].
    destruct (decide (pin = statusLED)) as [->|H5]; [reflexivity|].
    rewrite (Hout pin H1 H2 H3 H4 H5) in Hsome.
    destruct Hsome as [x Hx]. discriminate Hx.
  - destruct (decide (pin = motor1Enable)) as [->|H1]; [reflexivity|].
    destruct (decide (pin = motor2Enable)) as [->|H2]; [reflexivity|].
    rewrite (Hpwm pin H1 H2) in Hsome.
    destruct Hsome as [x Hx]. discriminate Hx.
Qed.

Lemma only_configured_outputs_are_driven_witness :
  reachable scenarioD /\
  is_Some (digitalOut scenarioD !! motor1B) /\
  pinModes scenarioD !! rainSensorPin = Some INPUT /\
  digitalOut scenarioD !! rainSensorPin = None /\
  pwmOut scenarioD !! rainSensorPin = None /\
  pinModes scenarioD !! motor1B = Some OUTPUT.
Proof.
  assert (Hsome : is_Some (digitalOut scenarioD !! motor1B))
    by (exists HIGH; reflexivity).
  destruct (only_configured_outputs_are_driven scenarioD scenarioD_reachable)
    as (Hmode & Hout & Hpwm & Hdriven).
  split; [exact scenarioD_reachable|]. split; [exact Hsome|].
  split; [exact Hmode|]. split; [exact Hout|]. split; [exact Hpwm|].
  exact (Hdriven motor1B (or_introl Hsome)).
Defined.

(** ** The status indicator within a pass *)

(** X11.  Every pass writes the status LED exactly once, as its last
    board call, after whatever the state handler did; and the handler
    made board calls at all only if the transition condition held. *)
Theorem pass_writes_led_once_at_end (e : Env) (w : World) :
  exists (evs : list Event) (level : Z),
    trace (iteration e w) = trace w ++ evs /\
    last evs = Some (EvDigitalWrite statusLED level) /\
    List.filter isLedWrite evs = [EvDigitalWrite statusLED level] /\
    (length evs = 1%nat <-> fires e w = false).
Proof.
  unfold fires, handlerTime, rainDetected.
  run_pass; rewrite <- ?app_assoc; cbn;
    eexists; eexists; (split; [reflexivity|]);
    (split; [reflexivity|]); (split; [reflexivity|]);
    cbn; split; intros H; (reflexivity || discriminate H).
Qed.

(** X12.  While the motors run the indicator blinks with a period of
    400 ms, half on and half off: as long as the counter has not
    wrapped, the level written 200 ms later is the opposite one. *)
Theorem led_toggles_every_200ms (pins : Z -> bool) (w : World) (t : Z) :
  driving (currentState w) = true ->
  0 <= t ->
  t + 200 < 2 ^ 32 ->
  exists level : Z,
    (level = LOW \/ level = HIGH) /\
    digitalOut (exec updateStatusLED (mkEnv pins (fun _ => t)) w) !! statusLED
      = Some level /\
    digitalOut (exec updateStatusLED (mkEnv pins (fun _ => t + 200)) w) !! statusLED
      = Some (1 - level).
Proof.
  intros Hdrive Ht Hmax.
  exists ((t / 200) mod 2).
  rewrite !updateStatusLED_world. cbn.
  rewrite !lookup_insert_eq, !wrap32_small by lia.
  assert (Hlevel : forall now, ledLevel (currentState w) now = (now / 200) mod 2)
    by (intros now; destruct (currentState w); cbn in Hdrive;
        try discriminate Hdrive; reflexivity).
  rewrite !Hlevel, !level_of_bit.
  replace (t + 200) with (t + 1 * 200) by lia. rewrite Z.div_add by lia.
  unfold LOW, HIGH.
  repeat split; [| f_equal]; Z.div_mod_to_equations; lia.
Qed.

Lemma led_toggles_every_200ms_witness :
  driving (currentState scenarioD) = true /\
  0 <= 1300 /\
  1300 + 200 < 2 ^ 32 /\
  exists level : Z,
    (level = LOW \/ level = HIGH) /\
    digitalOut (exec updateStatusLED (mkEnv (fun _ => false) (fun _ => 1300))
                     scenarioD) !! statusLED = Some level /\
    digitalOut (exec updateStatusLED (mkEnv (fun _ => false) (fun _ => 1300 + 200))
                     scenarioD) !! statusLED = Some (1 - level).
Proof.
  assert (H1 : driving (currentState scenarioD) = true) by reflexivity.
  assert (H2 : 0 <= 1300) by lia.
  assert (H3 : 1300 + 200 < 2 ^ 32) by lia.
  split; [exact H1|]. split; [exact H2|]. split; [exact H3|].
  exact (led_toggles_every_200ms (fun _ => false) scenarioD 1300 H1 H2 H3).
Defined.

(** A dry pass in EXTENDED makes one board call, the LED write. *)
Lemma pass_writes_led_once_at_end_witness :
  fires (frozen false 100) booted = false /\
  exists (evs : list Event) (level : Z),
    trace (iteration (frozen false 100) booted) = trace booted ++ evs /\
    last evs = Some (EvDigitalWrite statusLED level) /\
    List.filter isLedWrite evs = [EvDigitalWrite statusLED level] /\
    (length evs = 1%nat <-> fires (frozen false 100) booted = false).
Proof.
  split; [reflexivity|].
  exact (pass_writes_led_once_at_end (frozen false 100) booted).
Defined.
